(** * shrinkfuzz: the process harness of [shrinkfuzz/__main__.py]

    A shallow embedding of the command-line driver of shrinkfuzz: the
    closures that [main] builds around its arguments ([name_for],
    [hashed_name], [record_in], [classify], the corpus callbacks), the
    subprocess clean-up helpers [signal_group] and
    [interrupt_wait_and_kill], and [main] itself.  The file system, the
    subprocess and the kernel are explicit: files are a finite map from
    paths to contents, every system call the code makes is appended to a
    trace, and what the target command and the kernel answer is given by an
    environment. *)

From Stdlib Require Import ZArith QArith List Strings.String Strings.Ascii Strings.Byte Lia.
From stdpp Require Import base option numbers list gmap strings pretty.

Local Open Scope string_scope.
Local Open Scope list_scope.
Local Open Scope Z_scope.

(** ** Python values *)

(** A Python [bytes] object. *)
Abbreviation bytes := (list Byte.byte).

Definition bytes_of_string (s : string) : bytes := list_byte_of_string s.

(** [s[:n]] on a [str]: a negative bound counts from the end. *)
Fixpoint str_take (k : nat) (s : string) : string :=
  match k, s with
  | O, _ => EmptyString
  | S _, EmptyString => EmptyString
  | S k', String c s' => String c (str_take k' s')
  end.

Definition py_slice_to (n : Z) (s : string) : string :=
  if 0 <=? n then str_take (Z.to_nat n) s
  else str_take (Z.to_nat (Z.of_nat (String.length s) + n)) s.

(** ** [hashlib.sha1(s).hexdigest()]

    SHA-1 as in FIPS 180-4, on 32-bit words kept in [Z]. *)
Module Sha1.

Definition mask32 (x : Z) : Z := Z.land x 4294967295.
Definition add32 (x y : Z) : Z := mask32 (x + y).
Definition rotl (n x : Z) : Z :=
  mask32 (Z.lor (Z.shiftl x n) (Z.shiftr x (32 - n))).
Definition not32 (x : Z) : Z := Z.lxor x 4294967295.

Definition byteZ (b : Byte.byte) : Z := Z.of_N (Byte.to_N b).

(** Big-endian bytes of the low [8 * k] bits of [x]. *)
Fixpoint be_bytes (k : nat) (x : Z) : list Z :=
  match k with
  | O => []
  | S k' => Z.land (Z.shiftr x (8 * Z.of_nat k')) 255 :: be_bytes k' x
  end.

(** The message followed by 0x80, zeros up to 56 modulo 64, and the bit
    length on eight bytes. *)
Definition pad (msg : bytes) : list Z :=
  let n := Z.of_nat (List.length msg) in
  let zeros := Z.to_nat ((55 - n) mod 64) in
  (byteZ <$> msg) ++ 128 :: repeat 0 zeros ++ be_bytes 8 (8 * n).

Fixpoint word_of_be (acc : Z) (bs : list Z) : Z :=
  match bs with
  | [] => acc
  | b :: bs' => word_of_be (Z.lor (Z.shiftl acc 8) b) bs'
  end.

(** Cut a list into consecutive pieces of [k] elements ([fuel] bounds the
    number of pieces). *)
Fixpoint chunks {A} (fuel k : nat) (l : list A) : list (list A) :=
  match fuel, l with
  | O, _ | _, [] => []
  | S fuel', _ => take k l :: chunks fuel' k (drop k l)
  end.

(** The message schedule, most recent word first. *)
Fixpoint extend (n : nat) (rev_w : list Z) : list Z :=
  match n with
  | O => rev_w
  | S n' =>
      let at_ i := default 0 (rev_w !! i) in
      extend n'
        (rotl 1 (Z.lxor (Z.lxor (at_ 2%nat) (at_ 7%nat))
                        (Z.lxor (at_ 13%nat) (at_ 15%nat))) :: rev_w)
  end.

Definition schedule (block : list Z) : list Z :=
  rev (extend 64 (rev (word_of_be 0 <$> chunks 16 4 block))).

Definition state : Type := Z * Z * Z * Z * Z.

Definition round (t : nat) (st : state) (w : Z) : state :=
  let '(a, b, c, d, e) := st in
  let '(f, k) :=
    if (t <? 20)%nat then
      (Z.lor (Z.land b c) (Z.land (not32 b) d), 1518500249)
    else if (t <? 40)%nat then
      (Z.lxor (Z.lxor b c) d, 1859775393)
    else if (t <? 60)%nat then
      (Z.lor (Z.lor (Z.land b c) (Z.land b d)) (Z.land c d), 2400959708)
    else
      (Z.lxor (Z.lxor b c) d, 3395469782) in
  (add32 (add32 (add32 (add32 (rotl 5 a) f) e) k) w, a, rotl 30 b, c, d).

Fixpoint rounds (t : nat) (ws : list Z) (st : state) : state :=
  match ws with
  | [] => st
  | w :: ws' => rounds (S t) ws' (round t st w)
  end.

Definition compress (h : state) (block : list Z) : state :=
  let '(h0, h1, h2, h3, h4) := h in
  let '(a, b, c, d, e) := rounds 0 (schedule block) h in
  (add32 h0 a, add32 h1 b, add32 h2 c, add32 h3 d, add32 h4 e).

Definition init : state :=
  (1732584193, 4023233417, 2562383102, 271733878, 3285377520).

Definition digest (msg : bytes) : state :=
  let p := pad msg in
  fold_left compress (chunks (List.length p) 64 p) init.

Definition hex_digit (x : Z) : ascii :=
  default "0"%char (String.get (Z.to_nat x) "0123456789abcdef").

(** The [k] low nibbles of [x], most significant first. *)
Fixpoint hex (k : nat) (x : Z) : string :=
  match k with
  | O => EmptyString
  | S k' =>
      String (hex_digit (Z.land (Z.shiftr x (4 * Z.of_nat k')) 15)) (hex k' x)
  end.

Definition hexdigest (msg : bytes) : string :=
  let '(h0, h1, h2, h3, h4) := digest msg in
  hex 8 h0 +:+ hex 8 h1 +:+ hex 8 h2 +:+ hex 8 h3 +:+ hex 8 h4.

End Sha1.

(** ** [os.path] *)

Abbreviation path := string.

Definition starts_with_sep (p : path) : bool :=
  match p with
  | String c _ => Ascii.eqb c "/"
  | EmptyString => false
  end.

Fixpoint ends_with_sep (p : path) : bool :=
  match p with
  | EmptyString => false
  | String c EmptyString => Ascii.eqb c "/"
  | String _ p' => ends_with_sep p'
  end.

Fixpoint has_sep (p : path) : bool :=
  match p with
  | EmptyString => false
  | String c p' => Ascii.eqb c "/" || has_sep p'
  end.

(** [os.path.join(a, b)] (posixpath, two components). *)
Definition os_path_join (a b : path) : path :=
  if starts_with_sep b then b
  else if String.eqb a "" || ends_with_sep a then a +:+ b
  else a +:+ "/" +:+ b.

(** [os.path.basename(p)]: what follows the last separator. *)
Fixpoint os_path_basename (p : path) : path :=
  match p with
  | EmptyString => EmptyString
  | String c p' =>
      if Ascii.eqb c "/" || has_sep p' then os_path_basename p' else p
  end.

(** ** The process, the kernel and the trace *)

Inductive signal := SIGINT | SIGKILL.

(** Where [Popen] sends the three standard streams of the child. *)
Inductive stdio_target := sys_stdout | DEVNULL.

Inductive exn :=
| AssertionError
| ProcessLookupError
| FileNotFoundError.

(** The behaviour signature [classify] returns: the empty tuple [()] or a
    [set] of labels. *)
Inductive signature :=
| Discard
| Labels (ls : gset string).

(** The system calls the driver makes, in the order it makes them;
    [os.link] is the one call that is not logged here (see
    [best_changed]). *)
Inductive event :=
| EvUnlink (p : path)
| EvWrite (p : path) (c : bytes)
| EvRead (p : path)
| EvCopy (src dst : path)
| EvMakedirs (p : path)
| EvListdir (p : path)
| EvPopen (cmd : string) (std : stdio_target) (found : gmap path bytes)
| EvClose (fd : Z)
| EvKillpg (pgid : Z) (sig : signal)
| EvPoll (r : option Z)
| EvSleep (seconds : Q)
| EvEcho (msg : string)
| EvExit (status : Z).

(** What the environment answers for one launched command.  The child is
    started with [preexec_fn=os.setsid], so it leads a session and a process
    group of its own and its process-group id is its pid for as long as the
    kernel knows it.  The clean-up clock [t] counts the [time.sleep(0.1)]
    calls made since [interrupt_wait_and_kill] was entered. *)
Record run := {
  run_pid : Z;
  (** [Some (d, rc)]: left alone, the command exits after [d] seconds with
      [returncode] [rc] (negative when a signal killed it); [None]: it
      never exits by itself. *)
  run_exit : option (Q * Z);
  (** the files as the command leaves them when [communicate] returns or
      times out *)
  run_files : gmap path bytes;
  (** the process is still in the process table at clock [t] *)
  run_present : nat → bool;
  (** the process group still has a member at clock [t] *)
  run_group : nat → bool;
  (** what [sp.poll()] returns at clock [t] *)
  run_poll : nat → option Z;
}.

(** The [subprocess.Popen] object: [returncode] and the three pipe objects
    ([None] unless [subprocess.PIPE] was asked for). *)
Record Popen := {
  pid : Z;
  returncode : option Z;
  stdout : option Z;
  stderr : option Z;
  stdin : option Z;
}.

(** The variables of [main]'s frame that its closures share, the files, and
    the trace. *)
Record world := {
  files : gmap path bytes;
  first_call : bool;
  consecutive_timeouts : Z;
  launched : nat;
  trace : list event;
}.

Definition set_files (f : gmap path bytes) (w : world) : world :=
  {| files := f; first_call := first_call w;
     consecutive_timeouts := consecutive_timeouts w;
     launched := launched w; trace := trace w |}.

Definition set_first_call (b : bool) (w : world) : world :=
  {| files := files w; first_call := b;
     consecutive_timeouts := consecutive_timeouts w;
     launched := launched w; trace := trace w |}.

Definition set_consecutive_timeouts (n : Z) (w : world) : world :=
  {| files := files w; first_call := first_call w;
     consecutive_timeouts := n;
     launched := launched w; trace := trace w |}.

Definition set_launched (n : nat) (w : world) : world :=
  {| files := files w; first_call := first_call w;
     consecutive_timeouts := consecutive_timeouts w;
     launched := n; trace := trace w |}.

Definition log (e : event) (w : world) : world :=
  {| files := files w; first_call := first_call w;
     consecutive_timeouts := consecutive_timeouts w;
     launched := launched w; trace := trace w ++ [e] |}.

(** ** A monad for the driver: state, exceptions, [sys.exit], blocking *)

Inductive outcome (A : Type) :=
| Ret (a : A)
| Raise (e : exn)
| Exit (status : Z)
| Blocked.
Arguments Ret {A} a.
Arguments Raise {A} e.
Arguments Exit {A} status.
Arguments Blocked {A}.

Definition exn_eqb (a b : exn) : bool :=
  match a, b with
  | AssertionError, AssertionError
  | ProcessLookupError, ProcessLookupError
  | FileNotFoundError, FileNotFoundError => true
  | _, _ => false
  end.

Definition M (St A : Type) : Type := St → outcome A * St.

Section Monad.
Context {St : Type}.

Definition ret {A} (a : A) : M St A := λ w, (Ret a, w).

Definition bind {A B} (m : M St A) (k : A → M St B) : M St B :=
  λ w, match m w with
       | (Ret a, w') => k a w'
       | (Raise e, w') => (Raise e, w')
       | (Exit n, w') => (Exit n, w')
       | (Blocked, w') => (Blocked, w')
       end.

Definition raise {A} (e : exn) : M St A := λ w, (Raise e, w).
Definition block {A} : M St A := λ w, (Blocked, w).
Definition get {A} (f : St → A) : M St A := λ w, (Ret (f w), w).
Definition modify (f : St → St) : M St unit := λ w, (Ret tt, f w).

(** [try: m  except e: h] *)
Definition try_except {A} (m : M St A) (e : exn) (h : M St A) : M St A :=
  λ w, match m w with
       | (Raise e', w') => if exn_eqb e e' then h w' else (Raise e', w')
       | r => r
       end.

(** [try: m  finally: c]: [c] runs however [m] ends, and an exception or
    exit of [c] replaces the pending result of [m]. *)
Definition try_finally {A} (m : M St A) (c : M St unit) : M St A :=
  λ w, match m w with
       | (Blocked, w') => (Blocked, w')
       | (r, w') =>
           match c w' with
           | (Ret _, w'') => (r, w'')
           | (Raise e, w'') => (Raise e, w'')
           | (Exit n, w'') => (Exit n, w'')
           | (Blocked, w'') => (Blocked, w'')
           end
       end.

End Monad.

Notation "x <- m ;; k" := (bind m (λ x, k))
  (at level 100, m at next level, right associativity,
   format "'[v' x  <-  m  ;; '/' k ']'").
Notation "m ;; k" := (bind m (λ _, k))
  (at level 100, right associativity, format "'[v' m  ;; '/' k ']'").

Definition emit (e : event) : M world unit := modify (log e).

(** [sys.exit(n)] *)
Definition sys_exit {A} (n : Z) : M world A := λ w, (Exit n, log (EvExit n) w).

(** ** File-system calls

    Paths are the keys of a flat map and a write to any path succeeds:
    every bucket directory exists ([main] creates them before it defines
    its closures) and the names the driver writes lie directly in them
    ([main] has already written [initial-<input>] under the corpus
    directory when [classify] is first called).  Permissions and full disks
    are left out. *)

(** [os.unlink(p)] *)
Definition os_unlink (p : path) : M world unit :=
  fs <- get files ;;
  match fs !! p with
  | None => raise FileNotFoundError
  | Some _ => emit (EvUnlink p) ;; modify (set_files (delete p fs))
  end.

(** [with open(p, 'wb') as o: o.write(c)] *)
Definition write_file (p : path) (c : bytes) : M world unit :=
  emit (EvWrite p c) ;;
  fs <- get files ;;
  modify (set_files (<[p := c]> fs)).

(** [with open(p, 'rb') as i: i.read()] *)
Definition read_file (p : path) : M world bytes :=
  fs <- get files ;;
  match fs !! p with
  | None => raise FileNotFoundError
  | Some c => emit (EvRead p) ;; ret c
  end.

(** [shutil.copy(src, dst)] *)
Definition shutil_copy (src dst : path) : M world unit :=
  fs <- get files ;;
  match fs !! src with
  | None => raise FileNotFoundError
  | Some c => emit (EvCopy src dst) ;; modify (set_files (<[dst := c]> fs))
  end.

(** [os.path.exists(p)] *)
Definition os_path_exists (p : path) : M world bool :=
  fs <- get files ;;
  ret (bool_decide (is_Some (fs !! p))).

Fixpoint strip_prefix (pre s : string) : option string :=
  match pre, s with
  | EmptyString, _ => Some s
  | String a pre', String b s' =>
      if Ascii.eqb a b then strip_prefix pre' s' else None
  | String _ _, EmptyString => None
  end.

(** The name under which the file [k] appears in the directory [d]. *)
Definition entry_of (d k : path) : option string :=
  match strip_prefix (os_path_join d "") k with
  | Some f => if String.eqb f "" || has_sep f then None else Some f
  | None => None
  end.

(** [os.listdir(d)] *)
Definition os_listdir (d : path) : M world (list string) :=
  fs <- get files ;;
  emit (EvListdir d) ;;
  ret (omap (entry_of d) (map_to_list fs).*1).

(** The arguments of [main]. *)
Record config := {
  command : string;
  input : path;
  output : path;
  corpus : path;
  timeout : Q;
  debug : bool;
  hash_size : Z;
}.

(** The fixed pause between two polls: [time.sleep(0.1)]. *)
Definition poll_interval : Q := 1 # 10.

Section Harness.

(** [os.getgid()] in the engine process. *)
Variable getgid : Z.

(** ** Lines 13-34: signalling and reaping the child *)

(** [os.getpgid(p)] at clock [t], for the child [p] of the run [r]: a
    session leader, so its group id is [p] itself; [ProcessLookupError] once
    the process is gone. *)
Definition os_getpgid (r : run) (t : nat) (p : Z) : M world Z :=
  if run_present r t then ret p else raise ProcessLookupError.

(** [os.killpg(gid, sig)] at clock [t]: [ProcessLookupError] when the group
    has no member left. *)
Definition os_killpg (r : run) (t : nat) (gid : Z) (sig : signal)
  : M world unit :=
  if run_group r t then emit (EvKillpg gid sig) else raise ProcessLookupError.

(** [assert b] *)
Definition assert_ (b : bool) : M world unit :=
  if b then ret tt else raise AssertionError.

Definition signal_group (r : run) (t : nat) (sp : Popen) (sig : signal)
  : M world unit :=
  gid <- os_getpgid r t (pid sp) ;;
  assert_ (negb (gid =? getgid)) ;;
  os_killpg r t gid sig.

Definition close_pipe (pipe : option Z) : M world unit :=
  match pipe with
  | Some fd => emit (EvClose fd)
  | None => ret tt
  end.

(** [for _ in range(n): if sp.poll() is not None: return; time.sleep(0.1)]
    from clock [t] on; [true] when a poll saw the exit (the [return]). *)
Fixpoint poll_loop (r : run) (n t : nat) : M world bool :=
  match n with
  | O => ret false
  | S n' =>
      emit (EvPoll (run_poll r t)) ;;
      match run_poll r t with
      | Some _ => ret true
      | None => emit (EvSleep poll_interval) ;; poll_loop r n' (S t)
      end
  end.

Definition interrupt_wait_and_kill (r : run) (sp : Popen) : M world unit :=
  match returncode sp with
  | Some _ => ret tt
  | None =>
      close_pipe (stdout sp) ;;
      close_pipe (stderr sp) ;;
      close_pipe (stdin sp) ;;
      try_except
        (signal_group r 0 sp SIGINT ;;
         exited <- poll_loop r 10 0 ;;
         if exited then ret tt else signal_group r 10 sp SIGKILL)
        ProcessLookupError (ret tt)
  end.

(** ** Lines 54-142: the closures of [main] *)

Variable cfg : config.

(** What the target command does at its [n]-th launch, given the files it
    finds. *)
Variable target : nat → gmap path bytes → run.

Definition crashes : path := os_path_join (corpus cfg) "crashes".
Definition unstable : path := os_path_join (corpus cfg) "unstable".
Definition timeouts : path := os_path_join (corpus cfg) "timeouts".
Definition seeds : path := os_path_join (corpus cfg) "seeds".
Definition exemplars : path := os_path_join (corpus cfg) "exemplars".
Definition gallery : path := os_path_join (corpus cfg) "gallery".

Definition name_for (n : string) : string := n +:+ "-" +:+ input cfg.

Definition hashed_name (s : bytes) : string :=
  name_for (py_slice_to 8 (Sha1.hexdigest s)).

Definition record_in (f : path) (s : bytes) : M world unit :=
  write_file (os_path_join f (hashed_name s)) s.

(** [subprocess.Popen(command, stdout=target, stdin=target, stderr=target,
    preexec_fn=os.setsid, shell=True)]: no stream is a pipe. *)
Definition Popen_ (cmd : string) (std : stdio_target) : M world (Popen * run) :=
  fs <- get files ;;
  n <- get launched ;;
  emit (EvPopen cmd std fs) ;;
  modify (set_launched (S n)) ;;
  let r := target n fs in
  ret ({| pid := run_pid r; returncode := None;
          stdout := None; stderr := None; stdin := None |}, r).

(** [sp.communicate(timeout=...)] when [limit] is [Some _], and
    [sp.communicate()] otherwise.  [Some rc]: it returned and
    [sp.returncode] is [rc]; [None]: it raised
    [subprocess.TimeoutExpired]. *)
Definition communicate (r : run) (limit : option Q) : M world (option Z) :=
  match run_exit r, limit with
  | Some (d, rc), None => modify (set_files (run_files r)) ;; ret (Some rc)
  | Some (d, rc), Some l =>
      modify (set_files (run_files r)) ;;
      if Qle_bool d l then ret (Some rc) else ret None
  | None, Some _ => modify (set_files (run_files r)) ;; ret None
  | None, None => block
  end.

Definition with_returncode (sp : Popen) (rc : option Z) : Popen :=
  {| pid := pid sp; returncode := rc;
     stdout := stdout sp; stderr := stderr sp; stdin := stdin sp |}.

Definition too_many_timeouts : string :=
  "Too many timeouts - we've probably broken something. Aborting.".

Definition classify (s : bytes) : M world signature :=
  fc <- get first_call ;;
  std <- (if fc then modify (set_first_call false) ;; ret sys_stdout
          else ret DEVNULL) ;;
  try_except (os_unlink (output cfg)) FileNotFoundError (ret tt) ;;
  write_file (input cfg) s ;;
  child <- Popen_ (command cfg) std ;;
  let '(sp, r) := child in
  done_ <- communicate r
    (if Qle_bool (timeout cfg) 0 then None else Some (timeout cfg)) ;;
  match done_ with
  | None =>
      try_finally
        (record_in timeouts s ;;
         c <- get consecutive_timeouts ;;
         modify (set_consecutive_timeouts (c + 1)) ;;
         if 50 <? c + 1 then
           emit (EvEcho too_many_timeouts) ;;
           sys_exit 1
         else ret Discard)
        (interrupt_wait_and_kill r sp)
  | Some rc =>
      interrupt_wait_and_kill r (with_returncode sp (Some rc)) ;;
      modify (set_consecutive_timeouts 0) ;;
      if (rc <? 0) || (127 <? rc) then
        record_in crashes s ;;
        ret Discard
      else
        let results : gset string := {[ "return-" +:+ pretty rc ]} in
        output_contents <-
          try_except
            (c <- read_file (output cfg) ;;
             ret (Some (py_slice_to (hash_size cfg) (Sha1.hexdigest c))))
            FileNotFoundError (ret None) ;;
        match output_contents with
        | None => ret (Labels (results ∪ {[ "output-None" ]}))
        | Some h =>
            let gallery_file :=
              os_path_join gallery
                (h +:+ "-" +:+ os_path_basename (output cfg)) in
            shutil_copy (output cfg) gallery_file ;;
            ret (Labels (results ∪ {[ "output-" +:+ h ]}))
        end
  end.

(** ** Lines 144-177: the corpus callbacks *)

Definition corpus_path (s : bytes) : path :=
  os_path_join seeds (hashed_name s).

Definition added (s : bytes) : M world unit :=
  write_file (corpus_path s) s.

Definition removed (s : bytes) : M world unit :=
  try_except (os_unlink (corpus_path s)) FileNotFoundError (ret tt).

(** [os.link(src, dst)] gives the file at [src] a second name: from then
    on the two names are one file, and a write through either shows under
    both.  The file map of [world] keeps one content per name and cannot
    say so; the call is therefore left to whoever supplies it, and
    [best_changed] only says when it is made and with which names. *)
Variable os_link : path → path → M world unit.

(** [for r in b: ...] *)
Fixpoint best_changed (b : list string) (s : bytes) : M world unit :=
  match b with
  | [] => ret tt
  | r :: b' =>
      let p := corpus_path s in
      let tgt := os_path_join exemplars (name_for r) in
      try_except (os_unlink tgt) FileNotFoundError (ret tt) ;;
      os_link p tgt ;;
      present <- os_path_exists tgt ;;
      assert_ present ;;
      best_changed b' s
  end.

Definition unstable_callback (s : bytes) : M world unit :=
  record_in unstable s.

End Harness.

(** ** The shrink engine, as [main] uses it

    [shrinkfuzz.shrinker.Shrinker] is a parameter: any state type with a
    constructor and the four methods [main] calls.  Every method may run
    the callbacks it was given, raise, exit or block. *)

Record callbacks := {
  classify_callback : bytes → M world signature;
  add_callback : bytes → M world unit;
  remove_callback : bytes → M world unit;
  change_callback : list string → bytes → M world unit;
  unstable_callback_ : bytes → M world unit;
}.

(** The one message [main] hands to [shrinker.debug]:
    ["Reloading %r as %r" % (os.path.basename(f), result)]. *)
Inductive debug_message :=
| Reloading (name : string) (result : signature).

Record Shrinker := {
  shrinker : Type;
  Shrinker_new : list bytes → callbacks → bool → M world shrinker;
  Shrinker_seen : shrinker → bytes → M world (bool * shrinker);
  Shrinker_classify : shrinker → bytes → M world (signature * shrinker);
  Shrinker_debug : shrinker → debug_message → M world shrinker;
  Shrinker_run : shrinker → M world shrinker;
}.

(** The calls [main] makes into the engine and the directory listing, in
    order; kept beside the world, out of reach of the engine's methods. *)
Inductive call :=
| CallNew (initial : list bytes)
| CallSeen (s : bytes) (answer : bool)
| CallClassify (s : bytes)
| CallDebug (m : debug_message)
| CallListdir (p : path)
| CallRun.

Definition lift {A} (m : M world A) : M (list call * world) A :=
  λ st, let '(o, w') := m st.2 in (o, (st.1, w')).

Definition note (c : call) : M (list call * world) unit :=
  modify (λ st : list call * world, (st.1 ++ [c], st.2)).

Section Main.

Variable getgid : Z.
Variable cfg : config.
Variable target : nat → gmap path bytes → run.
Variable os_link : path → path → M world unit.
Variable engine : Shrinker.

Definition the_callbacks : callbacks :=
  {| classify_callback := classify getgid cfg target;
     add_callback := added cfg;
     remove_callback := removed cfg;
     change_callback := best_changed cfg os_link;
     unstable_callback_ := unstable_callback cfg |}.

(** Lines 188-199: [for f in os.listdir(seeds): ...] *)
Fixpoint reload (names : list string) (sh : shrinker engine)
  : M (list call * world) (shrinker engine) :=
  match names with
  | [] => ret sh
  | f :: names' =>
      let f := os_path_join (seeds cfg) f in
      s <- lift (try_except (c <- read_file f ;; ret (Some c))
                   FileNotFoundError (ret None)) ;;
      match s with
      | None => reload names' sh
      | Some s =>
          a <- lift (Shrinker_seen engine sh s) ;;
          note (CallSeen s a.1) ;;
          if a.1 then reload names' a.2
          else
            lift (os_unlink f) ;;
            note (CallClassify s) ;;
            b <- lift (Shrinker_classify engine a.2 s) ;;
            let m := Reloading (os_path_basename f) b.1 in
            note (CallDebug m) ;;
            sh' <- lift (Shrinker_debug engine b.2 m) ;;
            reload names' sh'
      end
  end.

Definition main : M (list call * world) unit :=
  lift (emit (EvMakedirs (crashes cfg)) ;;
        emit (EvMakedirs (seeds cfg)) ;;
        emit (EvMakedirs (unstable cfg)) ;;
        emit (EvMakedirs (timeouts cfg)) ;;
        emit (EvMakedirs (exemplars cfg)) ;;
        emit (EvMakedirs (gallery cfg)) ;;
        (* line 74: first_call = True *)
        modify (set_first_call true) ;;
        (* line 80: consecutive_timeouts = 0 *)
        modify (set_consecutive_timeouts 0)) ;;
  initial <- lift (read_file (input cfg)) ;;
  let save_initial := os_path_join (corpus cfg) (name_for cfg "initial") in
  present <- lift (os_path_exists save_initial) ;;
  (if present then ret tt else lift (write_file save_initial initial)) ;;
  note (CallNew [initial]) ;;
  sh <- lift (Shrinker_new engine [initial] the_callbacks (debug cfg)) ;;
  a <- lift (Shrinker_seen engine sh []) ;;
  note (CallSeen [] a.1) ;;
  sh <- (if a.1 then ret a.2
         else
           note (CallClassify []) ;;
           b <- lift (Shrinker_classify engine a.2 []) ;;
           ret b.2) ;;
  note (CallListdir (seeds cfg)) ;;
  names <- lift (os_listdir (seeds cfg)) ;;
  sh <- reload names sh ;;
  note CallRun ;;
  lift (Shrinker_run engine sh) ;;
  ret tt.

End Main.

(** ** Vocabulary of the statements *)

(** The world with [evs] appended to its trace. *)
Definition add_trace (evs : list event) (w : world) : world :=
  {| files := files w; first_call := first_call w;
     consecutive_timeouts := consecutive_timeouts w;
     launched := launched w; trace := trace w ++ evs |}.

(** The files the target finds when [classify cfg s] launches it from the
    files [fs]: lines 91-97. *)
Definition launch_files (cfg : config) (s : bytes) (fs : gmap path bytes)
  : gmap path bytes :=
  <[input cfg := s]>
    (match fs !! output cfg with
     | Some _ => delete (output cfg) fs
     | None => fs
     end).

(** The stream target [classify] picks: lines 85-89. *)
Definition launch_std (w : world) : stdio_target :=
  if first_call w then sys_stdout else DEVNULL.

(** The system calls of [classify] up to and including [Popen]. *)
Definition launch_events (cfg : config) (s : bytes) (w : world) : list event :=
  match files w !! output cfg with
   | Some _ => [EvUnlink (output cfg)]
   | None => []
   end
  ++ [EvWrite (input cfg) s;
      EvPopen (command cfg) (launch_std w) (launch_files cfg s (files w))].

(** The world in which the child of [classify cfg s] starts. *)
Definition launch_world (cfg : config) (s : bytes) (w : world) : world :=
  {| files := launch_files cfg s (files w);
     first_call := false;
     consecutive_timeouts := consecutive_timeouts w;
     launched := S (launched w);
     trace := trace w ++ launch_events cfg s w |}.

(** The run that [classify cfg s] starts from the world [w]. *)
Definition launch_run (cfg : config) (target : nat → gmap path bytes → run)
    (s : bytes) (w : world) : run :=
  target (launched w) (launch_files cfg s (files w)).

(** [communicate] returns: the command exits by itself with [rc], within
    the limit when there is one. *)
Definition exits_in_time (cfg : config) (r : run) (rc : Z) : Prop :=
  ∃ d, run_exit r = Some (d, rc)
       ∧ (Qle_bool (timeout cfg) 0 || Qle_bool d (timeout cfg) = true).

(** [communicate] raises [TimeoutExpired]: there is a limit and the command
    does not exit within it. *)
Definition times_out (cfg : config) (r : run) : Prop :=
  Qle_bool (timeout cfg) 0 = false
  ∧ match run_exit r with
    | Some (d, _) => Qle_bool d (timeout cfg) = false
    | None => True
    end.

(** The engine calling [classify] on one input after the other, until a
    call does not return. *)
Fixpoint classify_each (getgid : Z) (cfg : config)
    (target : nat → gmap path bytes → run) (ss : list bytes)
  : M world (list signature) :=
  match ss with
  | [] => ret []
  | s :: ss' =>
      x <- classify getgid cfg target s ;;
      xs <- classify_each getgid cfg target ss' ;;
      ret (x :: xs)
  end.

(** The stream targets of the [Popen] calls of a trace, in order. *)
Definition popen_targets (tr : list event) : list stdio_target :=
  omap (λ e, match e with EvPopen _ std _ => Some std | _ => None end) tr.

(** The signals of a trace, in order. *)
Definition signals_sent (tr : list event) : list (Z * signal) :=
  omap (λ e, match e with EvKillpg g sig => Some (g, sig) | _ => None end) tr.

(** [k] polls that find the child running, each followed by the pause. *)
Fixpoint waits (k : nat) : list event :=
  match k with
  | O => []
  | S k' => EvPoll None :: EvSleep poll_interval :: waits k'
  end.

(** The [close()] calls on the pipes of [sp] that exist. *)
Definition closes (sp : Popen) : list event :=
  omap (λ pipe, EvClose <$> pipe) [stdout sp; stderr sp; stdin sp].

(** The limit [classify] passes to [communicate]: lines 107-110. *)
Definition limit_of (cfg : config) : option Q :=
  if Qle_bool (timeout cfg) 0 then None else Some (timeout cfg).

(** The output label of a normal termination that leaves [o] at the output
    path: the truncated digest of the content, or [None] formatted by
    [%s]. *)
Definition output_label (cfg : config) (o : option bytes) : string :=
  "output-" +:+ match o with
                | Some c => py_slice_to (hash_size cfg) (Sha1.hexdigest c)
                | None => "None"
                end.

(** The characters of a hex digest. *)
Definition hex_char (c : ascii) : bool :=
  existsb (Ascii.eqb c) (list_ascii_of_string "0123456789abcdef").

Fixpoint all_hex (s : string) : bool :=
  match s with
  | EmptyString => true
  | String c s' => hex_char c && all_hex s'
  end.

(** The gallery name of an output artifact with content [c]. *)
Definition gallery_path (cfg : config) (c : bytes) : path :=
  os_path_join (gallery cfg)
    (py_slice_to (hash_size cfg) (Sha1.hexdigest c)
     +:+ "-" +:+ os_path_basename (output cfg)).

(** The world of [classify cfg s] when [communicate] has timed out and the
    [except] clause has run: where the clean-up of the [finally] clause
    starts. *)
Definition timed_out_world (cfg : config)
    (target : nat → gmap path bytes → run) (s : bytes) (w : world) : world :=
  let r := launch_run cfg target s w in
  let bucket := os_path_join (timeouts cfg) (hashed_name cfg s) in
  let c := consecutive_timeouts w + 1 in
  {| files := <[bucket := s]> (run_files r);
     first_call := false;
     consecutive_timeouts := c;
     launched := S (launched w);
     trace := trace w ++ launch_events cfg s w ++ EvWrite bucket s
                :: (if 50 <? c
                    then [EvEcho too_many_timeouts; EvExit 1] else []) |}.

(** The child as [Popen] returns it: no pipes, not yet waited for. *)
Definition child_of (r : run) : Popen :=
  {| pid := run_pid r; returncode := None;
     stdout := None; stderr := None; stdin := None |}.


(** The events that [w'] has after those of [w]. *)
Definition events_since (w w' : world) : list event :=
  drop (length (trace w)) (trace w').

(** Where [main] keeps a copy of the initial input: line 147. *)
Definition save_initial (cfg : config) : path :=
  os_path_join (corpus cfg) (name_for cfg "initial").



(** ** Readings that the code does not bear out *)

(** The breaker read as tripping with the 50th consecutive timeout. *)
Definition breaker_trips_at_threshold : Prop :=
  ∀ getgid cfg target ss w,
    (∀ n fs, times_out cfg (target n fs)) →
    (∀ n fs, run_pid (target n fs) ≠ getgid) →
    consecutive_timeouts w = 0 →
    length ss = 50%nat →
    (classify_each getgid cfg target ss w).1 = Exit 1.

(** A timeout read as leaving every shared variable but the counter as it
    was. *)
Definition timeout_touches_only_counter : Prop :=
  ∀ getgid cfg target s w,
    times_out cfg (launch_run cfg target s w) →
    consecutive_timeouts w < 50 →
    run_pid (launch_run cfg target s w) ≠ getgid →
    let w' := (classify getgid cfg target s w).2 in
    (classify getgid cfg target s w).1 = Ret Discard
    ∧ files w' !! os_path_join (timeouts cfg) (hashed_name cfg s) = Some s
    ∧ consecutive_timeouts w' = consecutive_timeouts w + 1
    ∧ first_call w' = first_call w.

(** [hash_size] read as the width of the digest in the output label and in
    the hashed name of a candidate alike. *)
Definition hash_size_sets_both_widths : Prop :=
  ∀ cfg s,
    0 ≤ hash_size cfg ≤ 40 →
    (∀ c, output_label cfg (Some c)
          = "output-" +:+ py_slice_to (hash_size cfg) (Sha1.hexdigest c))
    ∧ hashed_name cfg s
      = name_for cfg (py_slice_to (hash_size cfg) (Sha1.hexdigest s)).

(** The kill read as kept for a child that has not exited when the grace
    period of ten pauses ends: a child whose exit a poll would see at some
    clock up to 10 is not sent [SIGKILL]. *)
Definition exit_within_grace_prevents_kill : Prop :=
  ∀ getgid r sp w t rc,
    returncode sp = None →
    run_present r 0 = true →
    run_group r 0 = true →
    pid sp ≠ getgid →
    (t ≤ 10)%nat →
    run_poll r t = Some rc →
    ∀ g, (g, SIGKILL)
         ∉ signals_sent
             (events_since w (interrupt_wait_and_kill getgid r sp w).2).

(** ** Concrete runs *)

Module Scenario.

(** The engine runs under group id 1000. *)
Definition gid : Z := 1000.

Definition cfg : config :=
  {| command := "./target"; input := "in"; output := "out";
     corpus := "/w/corpus"; timeout := 5; debug := false; hash_size := 8 |}.

Definition narrow : config :=
  {| command := "./target"; input := "in"; output := "out";
     corpus := "/w/corpus"; timeout := 5; debug := false; hash_size := 4 |}.

(** The state in which [main] defines [classify]. *)
Definition fresh : world :=
  {| files := {[ "in" := bytes_of_string "ABCDEFGH" ]};
     first_call := true; consecutive_timeouts := 0;
     launched := 0; trace := [] |}.

Definition quiet_kernel (pid_ : Z) (exit_ : option (Q * Z))
    (fs : gmap path bytes) : run :=
  {| run_pid := pid_; run_exit := exit_; run_files := fs;
     run_present := λ _, true; run_group := λ _, true;
     run_poll := λ _, None |}.

(** Exits 0 after copying its input to its output. *)
Definition copies_input (n : nat) (fs : gmap path bytes) : run :=
  quiet_kernel (4000 + Z.of_nat n) (Some (1 # 100, 0))
    match fs !! "in" with
    | Some c => <["out" := c]> fs
    | None => fs
    end.

(** Exits 3 and writes nothing. *)
Definition writes_nothing (n : nat) (fs : gmap path bytes) : run :=
  quiet_kernel (4000 + Z.of_nat n) (Some (1 # 100, 3)) fs.

(** Killed by signal 11. *)
Definition segfaults (n : nat) (fs : gmap path bytes) : run :=
  quiet_kernel (4000 + Z.of_nat n) (Some (1 # 100, -11)) fs.

(** Never exits by itself; once interrupted it is gone after 0.3 s. *)
Definition hangs_from (first_pid : Z) (n : nat) (fs : gmap path bytes)
  : run :=
  {| run_pid := first_pid + Z.of_nat n; run_exit := None; run_files := fs;
     run_present := λ _, true; run_group := λ _, true;
     run_poll := λ t, if (3 <=? t)%nat then Some (-2) else None |}.

Definition hangs := hangs_from 4000.

(** The same, but the first child gets pid 1000. *)
Definition hangs_as_1000 := hangs_from 1000.

(** Never exits by itself and ignores the interrupt. *)
Definition ignores_sigint (n : nat) (fs : gmap path bytes) : run :=
  quiet_kernel (4000 + Z.of_nat n) None fs.

(** Never exits by itself; interrupted, it exits with status 7 during the
    tenth pause of the clean-up, and stays in the process table, unreaped,
    with its group. *)
Definition exits_late (n : nat) (fs : gmap path bytes) : run :=
  {| run_pid := 4000 + Z.of_nat n; run_exit := None; run_files := fs;
     run_present := λ _, true; run_group := λ _, true;
     run_poll := λ t, if (10 <=? t)%nat then Some 7 else None |}.

(** A child with three pipes. *)
Definition piped : Popen :=
  {| pid := 4000; returncode := None;
     stdout := Some 5; stderr := Some 6; stdin := Some 7 |}.

(** [os.link] as it answers when the source is missing; the engine below
    never asks for a link. *)
Definition no_source (src dst : path) : M world unit :=
  raise FileNotFoundError.

Fixpoint same_bytes (a b : bytes) : bool :=
  match a, b with
  | [], [] => true
  | x :: a', y :: b' => Byte.eqb x y && same_bytes a' b'
  | _, _ => false
  end.

(** A stand-in for the engine: it keeps the callbacks and the inputs it has
    classified, answers [seen] from them, hands every [classify] to the
    callback, and does nothing in [debug] and [run]. *)
Definition forwarding : Shrinker :=
  {| shrinker := callbacks * list bytes;
     Shrinker_new := λ _ cb _, ret (cb, []);
     Shrinker_seen := λ sh s, ret (existsb (same_bytes s) sh.2, sh);
     Shrinker_classify := λ sh s,
       x <- classify_callback sh.1 s ;;
       ret (x, (sh.1, s :: sh.2));
     Shrinker_debug := λ sh _, ret sh;
     Shrinker_run := λ sh, ret sh |}.

End Scenario.

(** * Facts *)

(** ** The library functions on known values *)

Example sha1_empty :
  Sha1.hexdigest [] = "da39a3ee5e6b4b0d3255bfef95601890afd80709".
Proof. vm_compute. reflexivity. Qed.

Example sha1_abc :
  Sha1.hexdigest (bytes_of_string "abc")
  = "a9993e364706816aba3e25717850c26c9cd0d89d".
Proof. vm_compute. reflexivity. Qed.

Example sha1_two_blocks :
  Sha1.hexdigest
    (bytes_of_string "abcdbcdecdefdefgefghfghighijhijkijkljklmklmnlmnomnopnopq")
  = "84983e441c3bd26ebaae4aa1f95129e5e54670f1".
Proof. vm_compute. reflexivity. Qed.

Example join_bucket : os_path_join "/w/corpus" "crashes" = "/w/corpus/crashes".
Proof. reflexivity. Qed.

Example join_absolute : os_path_join "/w/corpus" "/etc/x" = "/etc/x".
Proof. reflexivity. Qed.

Example basename_nested : os_path_basename "out/dir/image.png" = "image.png".
Proof. reflexivity. Qed.

Example basename_plain : os_path_basename "image.png" = "image.png".
Proof. reflexivity. Qed.

(** ** The world and the monad *)

Lemma add_trace_nil w : add_trace [] w = w.
Proof. destruct w; unfold add_trace; simpl. by rewrite app_nil_r. Qed.

Lemma add_trace_app evs evs' w :
  add_trace evs' (add_trace evs w) = add_trace (evs ++ evs') w.
Proof. unfold add_trace; simpl. by rewrite app_assoc. Qed.

Lemma log_add_trace e w : log e w = add_trace [e] w.
Proof. reflexivity. Qed.

Section HarnessFacts.

Variable getgid : Z.
Variable cfg : config.
Variable target : nat → gmap path bytes → run.

(** Lines 84-105 bring [classify] to the launch, whatever follows. *)
Lemma launch_bind {A} (k : Popen * run → M world A) s w :
  (fc <- get first_call ;;
   std <- (if fc then modify (set_first_call false) ;; ret sys_stdout
           else ret DEVNULL) ;;
   try_except (os_unlink (output cfg)) FileNotFoundError (ret tt) ;;
   write_file (input cfg) s ;;
   child <- Popen_ target (command cfg) std ;;
   k child) w
  = k (child_of (launch_run cfg target s w), launch_run cfg target s w)
      (launch_world cfg s w).
Proof.
  destruct w as [fs fc c n tr].
  unfold launch_world, launch_run, launch_events, launch_files, launch_std.
  unfold bind, get, try_except, os_unlink, write_file, Popen_, bind, get,
    emit, modify, ret, raise; simpl.
  destruct fc; simpl; destruct (fs !! output cfg); simpl;
    unfold log, set_files, set_launched, child_of; simpl;
    repeat rewrite <- app_assoc; reflexivity.
Qed.

(** *** Clean-up of the child *)

Lemma signal_group_eq r t sp sig w :
  signal_group getgid r t sp sig w
  = if run_present r t then
      if pid sp =? getgid then (Raise AssertionError, w)
      else if run_group r t then (Ret tt, add_trace [EvKillpg (pid sp) sig] w)
      else (Raise ProcessLookupError, w)
    else (Raise ProcessLookupError, w).
Proof.
  unfold signal_group, os_getpgid, os_killpg, assert_, bind, ret, raise, emit,
    modify.
  destruct (run_present r t); simpl; [|reflexivity].
  destruct (pid sp =? getgid); simpl; [reflexivity|].
  destruct (run_group r t); reflexivity.
Qed.

Lemma poll_loop_spec r n t w :
  (∃ k rc, (k < n)%nat
     ∧ (∀ i, (i < k)%nat → run_poll r (t + i) = None)
     ∧ run_poll r (t + k) = Some rc
     ∧ poll_loop r n t w
       = (Ret true, add_trace (waits k ++ [EvPoll (Some rc)]) w))
  ∨ ((∀ i, (i < n)%nat → run_poll r (t + i) = None)
     ∧ poll_loop r n t w = (Ret false, add_trace (waits n) w)).
Proof.
  revert t w. induction n as [|n IH]; intros t w.
  - right. split; [intros i Hi; lia|]. simpl. unfold ret.
    by rewrite add_trace_nil.
  - simpl. unfold bind, emit, modify. simpl.
    destruct (run_poll r t) as [rc|] eqn:Hp.
    + left. exists 0%nat, rc. split_and!; [lia | intros i Hi; lia | |].
      * by rewrite Nat.add_0_r.
      * reflexivity.
    + destruct (IH (S t) (log (EvSleep poll_interval) (log (EvPoll None) w)))
        as [(k & rc & Hk & Hnone & Hsome & Heq)|(Hnone & Heq)].
      * left. exists (S k), rc. split_and!; [lia | | |].
        -- intros [|i] Hi; [by rewrite Nat.add_0_r|].
           replace (t + S i)%nat with (S t + i)%nat by lia.
           apply Hnone. lia.
        -- by replace (t + S k)%nat with (S t + k)%nat by lia.
        -- rewrite Heq. f_equal. unfold add_trace, log; simpl.
           by rewrite <- !app_assoc.
      * right. split.
        -- intros [|i] Hi; [by rewrite Nat.add_0_r|].
           replace (t + S i)%nat with (S t + i)%nat by lia.
           apply Hnone. lia.
        -- rewrite Heq. f_equal. unfold add_trace, log; simpl.
           by rewrite <- !app_assoc.
Qed.

Lemma close_pipes_bind {A} (k : M world A) sp w :
  (close_pipe (stdout sp) ;; close_pipe (stderr sp) ;; close_pipe (stdin sp) ;;
   k) w
  = k (add_trace (closes sp) w).
Proof.
  unfold closes, close_pipe, bind, emit, modify, ret.
  destruct (stdout sp), (stderr sp), (stdin sp); simpl;
    rewrite ?log_add_trace, ?add_trace_app, ?add_trace_nil; reflexivity.
Qed.

Lemma waits_no_signal k : signals_sent (waits k) = [].
Proof. induction k; [reflexivity | exact IHk]. Qed.

Lemma waits_no_popen k : popen_targets (waits k) = [].
Proof. induction k; [reflexivity | exact IHk]. Qed.

Lemma closes_no_popen sp : popen_targets (closes sp) = [].
Proof. unfold closes. by destruct (stdout sp), (stderr sp), (stdin sp). Qed.

Lemma closes_no_signal sp : signals_sent (closes sp) = [].
Proof. unfold closes. by destruct (stdout sp), (stderr sp), (stdin sp). Qed.

Lemma popen_targets_app tr tr' :
  popen_targets (tr ++ tr') = popen_targets tr ++ popen_targets tr'.
Proof. apply omap_app. Qed.

Lemma signals_sent_app tr tr' :
  signals_sent (tr ++ tr') = signals_sent tr ++ signals_sent tr'.
Proof. apply omap_app. Qed.

(** What the signalling part of the clean-up does once the pipes are
    closed: the body of the [try] of lines 26-34, with its handler. *)
Lemma signalling_eq r sp w :
  try_except
    (signal_group getgid r 0 sp SIGINT ;;
     exited <- poll_loop r 10 0 ;;
     if exited then ret tt else signal_group getgid r 10 sp SIGKILL)
    ProcessLookupError (ret tt) w
  = if run_present r 0 then
      if pid sp =? getgid then (Raise AssertionError, w)
      else if run_group r 0 then
        match poll_loop r 10 0 (add_trace [EvKillpg (pid sp) SIGINT] w) with
        | (Ret true, w') => (Ret tt, w')
        | (Ret false, w') =>
            if run_present r 10 && run_group r 10
            then (Ret tt, add_trace [EvKillpg (pid sp) SIGKILL] w')
            else (Ret tt, w')
        | (Raise e, w') => (Raise e, w')
        | (Exit n, w') => (Exit n, w')
        | (Blocked, w') => (Blocked, w')
        end
      else (Ret tt, w)
    else (Ret tt, w).
Proof.
  unfold try_except, bind at 1. rewrite signal_group_eq.
  destruct (run_present r 0); [|reflexivity].
  destruct (pid sp =? getgid) eqn:Hgid; [reflexivity|].
  destruct (run_group r 0); [|reflexivity].
  unfold bind.
  destruct (poll_loop_spec r 10 0 (add_trace [EvKillpg (pid sp) SIGINT] w))
    as [(k & rc & _ & _ & _ & ->)|(_ & ->)]; [reflexivity|].
  rewrite signal_group_eq, Hgid.
  destruct (run_present r 10); [|reflexivity].
  destruct (run_group r 10); reflexivity.
Qed.

Lemma interrupt_wait_and_kill_eq r sp w :
  interrupt_wait_and_kill getgid r sp w
  = match returncode sp with
    | Some _ => (Ret tt, w)
    | None =>
        try_except
          (signal_group getgid r 0 sp SIGINT ;;
           exited <- poll_loop r 10 0 ;;
           if exited then ret tt else signal_group getgid r 10 sp SIGKILL)
          ProcessLookupError (ret tt) (add_trace (closes sp) w)
    end.
Proof.
  unfold interrupt_wait_and_kill. destruct (returncode sp); [reflexivity|].
  by rewrite close_pipes_bind.
Qed.

(** The clean-up only appends to the trace, starts no process, and ends
    normally unless the assertion of [signal_group] fails. *)
Lemma cleanup_shape r sp w :
  ∃ o evs,
    interrupt_wait_and_kill getgid r sp w = (o, add_trace evs w)
    ∧ popen_targets evs = []
    ∧ (o = Ret tt
       ∨ (o = Raise AssertionError ∧ pid sp = getgid
          ∧ returncode sp = None)).
Proof.
  rewrite interrupt_wait_and_kill_eq.
  destruct (returncode sp) eqn:Hrc.
  { exists (Ret tt), []. rewrite add_trace_nil. auto. }
  rewrite signalling_eq.
  destruct (run_present r 0).
  2:{ exists (Ret tt), (closes sp). split_and!; auto using closes_no_popen. }
  destruct (pid sp =? getgid) eqn:Hgid.
  { exists (Raise AssertionError), (closes sp).
    split_and!; auto using closes_no_popen. right. split_and!; auto; lia. }
  destruct (run_group r 0).
  2:{ exists (Ret tt), (closes sp). split_and!; auto using closes_no_popen. }
  destruct (poll_loop_spec r 10 0
              (add_trace [EvKillpg (pid sp) SIGINT] (add_trace (closes sp) w)))
    as [(k & rc & _ & _ & _ & ->)|(_ & ->)].
  - eexists (Ret tt), _. rewrite !add_trace_app. split_and!; [reflexivity| |auto].
    by rewrite !popen_targets_app, closes_no_popen, waits_no_popen.
  - destruct (run_present r 10 && run_group r 10);
      eexists (Ret tt), _; rewrite !add_trace_app;
      (split_and!; [reflexivity| |auto]);
      by rewrite !popen_targets_app, closes_no_popen, ?waits_no_popen.
Qed.

(** C5, as the code has it: when the child has not been reaped
    ([returncode] is [None]) and the kernel still knows it, the clean-up
    closes every existing pipe of the child and then interrupts the child's
    process group.  It then polls at most ten times, the first time at
    once and with a pause of 0.1 s after every poll that finds the child
    running; the first poll that sees the exit ends the clean-up, so a
    child seen to exit by one of the ten polls is never sent [SIGKILL].
    After the tenth pause the code does not poll again: the group is sent
    [SIGKILL] exactly when the ten polls all found the child running and
    the kernel still knows the process and its group, whatever the child
    has done during the last pause.  When the assertion of [signal_group]
    fails, the clean-up ends with [AssertionError] once the pipes are
    closed and sends no signal at all. *)
Theorem interrupt_then_kill_after_grace r sp w :
  returncode sp = None →
  run_present r 0 = true →
  run_group r 0 = true →
  if pid sp =? getgid then
    interrupt_wait_and_kill getgid r sp w
    = (Raise AssertionError, add_trace (closes sp) w)
  else
    ∃ evs,
      interrupt_wait_and_kill getgid r sp w
      = (Ret tt, add_trace (closes sp ++ EvKillpg (pid sp) SIGINT :: evs) w)
      ∧ ((∃ k rc, (k < 10)%nat
            ∧ (∀ i, (i < k)%nat → run_poll r i = None)
            ∧ run_poll r k = Some rc
            ∧ evs = waits k ++ [EvPoll (Some rc)])
         ∨ ((∀ i, (i < 10)%nat → run_poll r i = None)
            ∧ evs = waits 10
                    ++ (if run_present r 10 && run_group r 10
                        then [EvKillpg (pid sp) SIGKILL] else [])))
      ∧ (∀ g, (g, SIGKILL) ∈ signals_sent evs
              ↔ g = pid sp
                ∧ (∀ i, (i < 10)%nat → run_poll r i = None)
                ∧ run_present r 10 = true
                ∧ run_group r 10 = true).
Proof.
  intros Hrc Hpresent Hgroup.
  rewrite interrupt_wait_and_kill_eq, Hrc, signalling_eq, Hpresent, Hgroup.
  destruct (pid sp =? getgid) eqn:Hgid; [reflexivity|].
  destruct (poll_loop_spec r 10 0
              (add_trace [EvKillpg (pid sp) SIGINT] (add_trace (closes sp) w)))
    as [(k & rc & Hk & Hnone & Hsome & ->)|(Hnone & ->)].
  - exists (waits k ++ [EvPoll (Some rc)]). split_and!.
    + by rewrite !add_trace_app.
    + left. exists k, rc. auto.
    + intros g. rewrite signals_sent_app, waits_no_signal. simpl. split.
      * by intros ?%elem_of_nil.
      * intros (_ & Hall & _). specialize (Hall k Hk). simpl in Hsome.
        congruence.
  - destruct (run_present r 10 && run_group r 10) eqn:Hthere.
    + apply andb_true_iff in Hthere as [Hp Hg].
      exists (waits 10 ++ [EvKillpg (pid sp) SIGKILL]). split_and!.
      * by rewrite !add_trace_app.
      * right. auto.
      * intros g. rewrite signals_sent_app, waits_no_signal. simpl.
        rewrite list_elem_of_singleton. split.
        -- intros [= ->]. auto.
        -- by intros (-> & _).
    + exists (waits 10 ++ []). split_and!.
      * by rewrite !add_trace_app.
      * right. auto.
      * intros g. rewrite signals_sent_app, waits_no_signal. simpl. split.
        -- by intros ?%elem_of_nil.
        -- intros (_ & _ & Hp & Hg). rewrite Hp, Hg in Hthere.
           discriminate Hthere.
Qed.

(** *** Waiting for the child *)

Lemma communicate_returns r rc w :
  exits_in_time cfg r rc →
  communicate r (limit_of cfg) w = (Ret (Some rc), set_files (run_files r) w).
Proof.
  intros (d & Hexit & Hin). unfold communicate, limit_of. rewrite Hexit.
  destruct (Qle_bool (timeout cfg) 0); simpl in *; [reflexivity|].
  unfold bind, modify, ret. by rewrite Hin.
Qed.

Lemma communicate_times_out r w :
  times_out cfg r →
  communicate r (limit_of cfg) w = (Ret None, set_files (run_files r) w).
Proof.
  intros [Hlimit Hlate]. unfold communicate, limit_of. rewrite Hlimit.
  destruct (run_exit r) as [[d rc]|]; [|reflexivity].
  unfold bind, modify, ret. by rewrite Hlate.
Qed.

Lemma exits_or_times_out r :
  (∃ rc, exits_in_time cfg r rc) ∨ times_out cfg r
  ∨ (run_exit r = None ∧ Qle_bool (timeout cfg) 0 = true).
Proof.
  unfold exits_in_time, times_out.
  destruct (run_exit r) as [[d rc]|];
    destruct (Qle_bool (timeout cfg) 0) eqn:Hl; simpl; eauto.
  destruct (Qle_bool d (timeout cfg)) eqn:Hd; eauto.
Qed.

(** [classify] from the launch on, when [communicate] returns. *)
Lemma classify_returned s w rc :
  exits_in_time cfg (launch_run cfg target s w) rc →
  classify getgid cfg target s w
  = let r := launch_run cfg target s w in
    let w1 := set_consecutive_timeouts 0
                (set_files (run_files r) (launch_world cfg s w)) in
    if (rc <? 0) || (127 <? rc) then
      (Ret Discard,
       set_files (<[os_path_join (crashes cfg) (hashed_name cfg s) := s]>
                    (run_files r))
         (add_trace
            [EvWrite (os_path_join (crashes cfg) (hashed_name cfg s)) s] w1))
    else
      match run_files r !! output cfg with
      | Some c =>
          (Ret (Labels ({[ "return-" +:+ pretty rc ]}
                        ∪ {[ output_label cfg (Some c) ]})),
           set_files (<[gallery_path cfg c := c]> (run_files r))
             (add_trace
                [EvRead (output cfg);
                 EvCopy (output cfg) (gallery_path cfg c)] w1))
      | None =>
          (Ret (Labels ({[ "return-" +:+ pretty rc ]}
                        ∪ {[ output_label cfg None ]})), w1)
      end.
Proof.
  intros Hexit. unfold classify. rewrite launch_bind. simpl.
  unfold bind at 1. rewrite (communicate_returns _ _ _ Hexit).
  unfold bind at 1. rewrite interrupt_wait_and_kill_eq. simpl.
  unfold bind at 1. unfold modify at 1.
  destruct ((rc <? 0) || (127 <? rc)).
  - reflexivity.
  - unfold bind, try_except, read_file, shutil_copy, bind, get, emit, modify,
      ret, raise. simpl.
    destruct (run_files (launch_run cfg target s w) !! output cfg)
      as [c|] eqn:Hout; simpl; [|reflexivity].
    rewrite Hout. f_equal.
    unfold set_files, add_trace, log; simpl. by rewrite <- app_assoc.
Qed.

(** [classify] from the launch on, when [communicate] times out. *)
Lemma classify_timed_out s w :
  times_out cfg (launch_run cfg target s w) →
  classify getgid cfg target s w
  = let r := launch_run cfg target s w in
    match interrupt_wait_and_kill getgid r (child_of r)
            (timed_out_world cfg target s w) with
    | (Ret _, w') =>
        (if 50 <? consecutive_timeouts w + 1 then Exit 1 else Ret Discard, w')
    | (Raise e, w') => (Raise e, w')
    | (Exit n, w') => (Exit n, w')
    | (Blocked, w') => (Blocked, w')
    end.
Proof.
  intros Hlate. unfold classify. rewrite launch_bind. simpl.
  unfold bind at 1. rewrite (communicate_times_out _ _ Hlate).
  unfold try_finally, record_in, write_file, bind, get, emit, modify, sys_exit,
    ret. simpl.
  unfold timed_out_world.
  destruct (50 <? consecutive_timeouts w + 1); simpl;
    unfold log, set_files, set_consecutive_timeouts; simpl;
    rewrite <- !app_assoc; simpl; reflexivity.
Qed.

Lemma classify_blocked s w :
  run_exit (launch_run cfg target s w) = None →
  Qle_bool (timeout cfg) 0 = true →
  classify getgid cfg target s w = (Blocked, launch_world cfg s w).
Proof.
  intros Hnever Hnolimit. unfold classify. rewrite launch_bind. simpl.
  unfold bind, communicate. by rewrite Hnever, Hnolimit.
Qed.

(** Every call launches exactly one child, in the launch world and with
    the launch events first, clears [first_call], and starts nothing
    else. *)
Lemma classify_effect s w :
  ∃ evs,
    trace (classify getgid cfg target s w).2
    = trace w ++ launch_events cfg s w ++ evs
    ∧ popen_targets evs = []
    ∧ first_call (classify getgid cfg target s w).2 = false
    ∧ launched (classify getgid cfg target s w).2 = S (launched w).
Proof.
  destruct (exits_or_times_out (launch_run cfg target s w))
    as [[rc Hexit]|[Hlate|[Hnever Hnolimit]]].
  - rewrite (classify_returned _ _ _ Hexit). simpl.
    destruct ((rc <? 0) || (127 <? rc)); simpl.
    + eexists. rewrite <- app_assoc. split_and!; reflexivity.
    + destruct (run_files _ !! output cfg); simpl.
      * eexists. rewrite <- app_assoc. split_and!; reflexivity.
      * exists []. rewrite app_nil_r. split_and!; reflexivity.
  - rewrite (classify_timed_out _ _ Hlate). simpl.
    destruct (cleanup_shape (launch_run cfg target s w)
                (child_of (launch_run cfg target s w))
                (timed_out_world cfg target s w))
      as (o & evs & -> & Hnone & _).
    exists (EvWrite (os_path_join (timeouts cfg) (hashed_name cfg s)) s
            :: (if 50 <? consecutive_timeouts w + 1
                then [EvEcho too_many_timeouts; EvExit 1] else []) ++ evs).
    assert (popen_targets
              (EvWrite (os_path_join (timeouts cfg) (hashed_name cfg s)) s
               :: (if 50 <? consecutive_timeouts w + 1
                   then [EvEcho too_many_timeouts; EvExit 1] else [])
               ++ evs) = []) as Hquiet.
    { destruct (50 <? consecutive_timeouts w + 1); simpl; exact Hnone. }
    destruct o as [[]|e|n|]; simpl;
      (split_and!; [|exact Hquiet|reflexivity|reflexivity]);
      rewrite <- !app_assoc; simpl; reflexivity.
  - rewrite (classify_blocked _ _ Hnever Hnolimit). simpl.
    exists []. by rewrite app_nil_r.
Qed.

(** *** Lines 91-105: what the target is launched on *)

Lemma launch_files_input s (fs : gmap path bytes) :
  launch_files cfg s fs !! input cfg = Some s.
Proof. unfold launch_files. apply lookup_insert_eq. Qed.

Lemma launch_files_output s (fs : gmap path bytes) :
  output cfg ≠ input cfg → launch_files cfg s fs !! output cfg = None.
Proof.
  intros Hne. unfold launch_files. rewrite lookup_insert_ne by done.
  destruct (fs !! output cfg) eqn:Hout; [apply lookup_delete_eq | done].
Qed.

Lemma launch_files_other s (fs : gmap path bytes) p :
  p ≠ input cfg → p ≠ output cfg → launch_files cfg s fs !! p = fs !! p.
Proof.
  intros Hin Hout. unfold launch_files. rewrite lookup_insert_ne by done.
  destruct (fs !! output cfg); [by rewrite lookup_delete_ne | done].
Qed.

(** C8: every call of [classify] first removes the file at the output
    path when there is one (a missing file is passed over), then writes
    the candidate to the input path, and only then launches the target;
    the target starts on files in which the input path holds exactly the
    candidate, the output path holds nothing left over from before, and
    every other path is as it was.  Nothing else is launched by the
    call. *)
Theorem classify_prepares_files s w :
  ∃ evs,
    let fs := launch_files cfg s (files w) in
    trace (classify getgid cfg target s w).2
    = trace w
      ++ match files w !! output cfg with
         | Some _ => [EvUnlink (output cfg)]
         | None => []
         end
      ++ [EvWrite (input cfg) s;
          EvPopen (command cfg) (launch_std w) fs]
      ++ evs
    ∧ popen_targets evs = []
    ∧ fs !! input cfg = Some s
    ∧ (output cfg ≠ input cfg → fs !! output cfg = None)
    ∧ (∀ p, p ≠ input cfg → p ≠ output cfg → fs !! p = files w !! p).
Proof.
  destruct (classify_effect s w) as (evs & Htrace & Hquiet & _).
  exists evs. simpl. split_and!.
  - rewrite Htrace. unfold launch_events. by rewrite <- !app_assoc.
  - exact Hquiet.
  - apply launch_files_input.
  - apply launch_files_output.
  - apply launch_files_other.
Qed.

(** *** The digest never reads [None] *)

Lemma hex_digit_is_hex y : hex_char (Sha1.hex_digit (Z.land y 15)) = true.
Proof.
  change 15 with (Z.ones 4). rewrite Z.land_ones by lia.
  pose proof (Z.mod_pos_bound y (2 ^ 4) ltac:(lia)) as Hv.
  set (v := y mod 2 ^ 4) in *.
  assert (v = 0 ∨ v = 1 ∨ v = 2 ∨ v = 3 ∨ v = 4 ∨ v = 5 ∨ v = 6 ∨ v = 7
          ∨ v = 8 ∨ v = 9 ∨ v = 10 ∨ v = 11 ∨ v = 12 ∨ v = 13 ∨ v = 14
          ∨ v = 15) as Hcases by lia.
  repeat destruct Hcases as [->|Hcases]; try rewrite Hcases; reflexivity.
Qed.

Lemma hex_all_hex k x : all_hex (Sha1.hex k x) = true.
Proof.
  induction k as [|k IH]; simpl; [done|].
  by rewrite hex_digit_is_hex, IH.
Qed.

Lemma all_hex_app a b : all_hex (a +:+ b) = all_hex a && all_hex b.
Proof.
  induction a as [|c a IH]; simpl; [done|]. by rewrite IH, andb_assoc.
Qed.

Lemma hexdigest_all_hex (s : bytes) : all_hex (Sha1.hexdigest s) = true.
Proof.
  unfold Sha1.hexdigest.
  destruct (Sha1.digest s) as [[[[h0 h1] h2] h3] h4].
  by rewrite !all_hex_app, !hex_all_hex.
Qed.

Lemma str_take_all_hex k s : all_hex s = true → all_hex (str_take k s) = true.
Proof.
  revert s. induction k as [|k IH]; intros [|c s]; simpl; try done.
  intros [Hc Hs]%andb_prop. by rewrite Hc, IH.
Qed.

Lemma string_app_cancel (a b c : string) : a +:+ b = a +:+ c → b = c.
Proof. induction a as [|x a IH]; simpl; [done|]. intros [=]. auto. Qed.

Lemma absence_is_a_label_of_its_own c :
  output_label cfg (Some c) ≠ output_label cfg None.
Proof.
  unfold output_label. intros Hnone%string_app_cancel.
  assert (all_hex (py_slice_to (hash_size cfg) (Sha1.hexdigest c)) = true)
    as Hhex.
  { unfold py_slice_to.
    destruct (0 <=? hash_size cfg);
      apply str_take_all_hex, hexdigest_all_hex. }
  rewrite Hnone in Hhex. discriminate Hhex.
Qed.

(** *** Lines 124-142: judging a run that ended by itself *)

Lemma return_label_is_not_output (rc : Z) o :
  "return-" +:+ pretty rc ≠ output_label cfg o.
Proof. unfold output_label. simpl. discriminate. Qed.

(** C2: when the target ends by itself with an exit status between 0 and
    127, [classify] returns a set of exactly two labels: [return-] and
    the status in decimal, and [output-] and either the SHA-1 hex digest
    of the output file cut by [hash_size], when the target left an output
    file, or [None] when it left none, which no digest label is.  A
    missing output file is no error; an existing one is copied to the
    gallery under its digest. *)
Theorem normal_exit_signature s w rc :
  exits_in_time cfg (launch_run cfg target s w) rc →
  0 ≤ rc ≤ 127 →
  let r := launch_run cfg target s w in
  let w' := (classify getgid cfg target s w).2 in
  ∃ ls,
    (classify getgid cfg target s w).1 = Ret (Labels ls)
    ∧ ls = {[ "return-" +:+ pretty rc;
              output_label cfg (run_files r !! output cfg) ]}
    ∧ size ls = 2%nat
    ∧ (∀ c, output_label cfg (Some c) ≠ output_label cfg None)
    ∧ (∀ c, run_files r !! output cfg = Some c →
            files w' !! gallery_path cfg c = Some c).
Proof.
  intros Hexit Hrc r w'. subst w'.
  rewrite (classify_returned _ _ _ Hexit). fold r.
  replace ((rc <? 0) || (127 <? rc)) with false by lia.
  simpl.
  exists ({[ "return-" +:+ pretty rc;
             output_label cfg (run_files r !! output cfg) ]}).
  split_and!.
  - by destruct (run_files r !! output cfg).
  - reflexivity.
  - rewrite size_union, !size_singleton; [reflexivity|].
    apply disjoint_singleton_l. rewrite elem_of_singleton.
    apply return_label_is_not_output.
  - apply absence_is_a_label_of_its_own.
  - intros c Hc. rewrite Hc. simpl. apply lookup_insert_eq.
Qed.

(** C3: when the target ends by itself with a negative exit status (a
    signal killed it) or one above 127, [classify] returns the empty
    signature, never a set of labels, and leaves the candidate in the
    crashes bucket under its hashed name; the other files are as the
    target left them. *)
Theorem crash_is_discarded_and_recorded s w rc :
  exits_in_time cfg (launch_run cfg target s w) rc →
  rc < 0 ∨ 127 < rc →
  let r := launch_run cfg target s w in
  let w' := (classify getgid cfg target s w).2 in
  let bucket := os_path_join (crashes cfg) (hashed_name cfg s) in
  (classify getgid cfg target s w).1 = Ret Discard
  ∧ files w' !! bucket = Some s
  ∧ (∀ p, p ≠ bucket → files w' !! p = run_files r !! p)
  ∧ EvWrite bucket s ∈ trace w'.
Proof.
  intros Hexit Hrc r w' bucket. subst w'.
  rewrite (classify_returned _ _ _ Hexit). fold r.
  replace ((rc <? 0) || (127 <? rc)) with true by lia.
  simpl. split_and!.
  - reflexivity.
  - apply lookup_insert_eq.
  - intros p Hp. by rewrite lookup_insert_ne.
  - rewrite !elem_of_app, list_elem_of_singleton. by right.
Qed.

(** *** Lines 111-121: a run that times out *)

Lemma timeout_step s w :
  times_out cfg (launch_run cfg target s w) →
  run_pid (launch_run cfg target s w) ≠ getgid →
  ∃ evs,
    classify getgid cfg target s w
    = (if 50 <? consecutive_timeouts w + 1 then Exit 1 else Ret Discard,
       add_trace evs (timed_out_world cfg target s w))
    ∧ popen_targets evs = [].
Proof.
  intros Hlate Hgid. rewrite (classify_timed_out _ _ Hlate). simpl.
  destruct (cleanup_shape (launch_run cfg target s w)
              (child_of (launch_run cfg target s w))
              (timed_out_world cfg target s w))
    as (o & evs & -> & Hquiet & [->|(_ & Heq & _)]).
  - by exists evs.
  - simpl in Heq. contradiction.
Qed.

(** C4, as the code has it: when the target is still running at the
    limit, and fewer than 50 timeouts came directly before, and the
    assertion of [signal_group] passes, [classify] returns the empty
    signature and leaves the candidate in the timeouts bucket under its
    hashed name; of the variables [classify] shares with later calls the
    counter goes up by one and the first-call flag is cleared, as it is by
    every call, and nothing else changes; the other files are as the
    target left them. *)
Theorem timeout_is_discarded_and_counted s w :
  times_out cfg (launch_run cfg target s w) →
  consecutive_timeouts w < 50 →
  run_pid (launch_run cfg target s w) ≠ getgid →
  let r := launch_run cfg target s w in
  let w' := (classify getgid cfg target s w).2 in
  let bucket := os_path_join (timeouts cfg) (hashed_name cfg s) in
  (classify getgid cfg target s w).1 = Ret Discard
  ∧ files w' !! bucket = Some s
  ∧ (∀ p, p ≠ bucket → files w' !! p = run_files r !! p)
  ∧ consecutive_timeouts w' = consecutive_timeouts w + 1
  ∧ first_call w' = false.
Proof.
  intros Hlate Hbelow Hgid r w' bucket. subst w'.
  destruct (timeout_step s w Hlate Hgid) as (evs & -> & _).
  replace (50 <? consecutive_timeouts w + 1) with false by lia.
  simpl. split_and!; try reflexivity.
  - apply lookup_insert_eq.
  - intros p Hp. by rewrite lookup_insert_ne.
Qed.


(** *** The circuit breaker *)

Lemma returned_resets_counter s w rc :
  exits_in_time cfg (launch_run cfg target s w) rc →
  consecutive_timeouts (classify getgid cfg target s w).2 = 0.
Proof.
  intros Hexit. rewrite (classify_returned _ _ _ Hexit). simpl.
  destruct ((rc <? 0) || (127 <? rc)); [reflexivity|].
  by destruct (run_files _ !! output cfg).
Qed.

(** A target that never comes back in time: the calls return the empty
    signature while the counter stays at or below 50, and the call that
    takes it to 51 exits with status 1. *)
Lemma always_timing_out_run ss :
  (∀ n fs, times_out cfg (target n fs)) →
  (∀ n fs, run_pid (target n fs) ≠ getgid) →
  ∀ w, 0 ≤ consecutive_timeouts w ≤ 50 →
  ((Z.of_nat (length ss) ≤ 50 - consecutive_timeouts w) →
     (classify_each getgid cfg target ss w).1
     = Ret (repeat Discard (length ss))
     ∧ consecutive_timeouts (classify_each getgid cfg target ss w).2
       = consecutive_timeouts w + Z.of_nat (length ss)
     ∧ launched (classify_each getgid cfg target ss w).2
       = (launched w + length ss)%nat)
  ∧ ((50 - consecutive_timeouts w < Z.of_nat (length ss)) →
     (classify_each getgid cfg target ss w).1 = Exit 1
     ∧ consecutive_timeouts (classify_each getgid cfg target ss w).2 = 51
     ∧ Z.of_nat (launched (classify_each getgid cfg target ss w).2)
       = Z.of_nat (launched w) + 51 - consecutive_timeouts w
     ∧ EvExit 1 ∈ trace (classify_each getgid cfg target ss w).2).
Proof.
  intros Hlate Hgid. induction ss as [|s ss IH]; intros w Hc.
  { simpl. split; intros Hlen; [|lia]. split_and!; [reflexivity|lia|lia]. }
  cbn [classify_each length].
  destruct (timeout_step s w (Hlate _ _) (Hgid _ _)) as (evs & Hstep & _).
  unfold bind. rewrite Hstep.
  destruct (50 <? consecutive_timeouts w + 1) eqn:Hover.
  - split; intros Hlen; [lia|]. simpl. split_and!; [reflexivity|lia|lia|].
    rewrite Hover, !elem_of_app. left. right. right.
    rewrite !elem_of_cons. auto.
  - destruct (IH (add_trace evs (timed_out_world cfg target s w)))
      as [IHfew IHmany]; [simpl; lia|].
    destruct (classify_each getgid cfg target ss
                (add_trace evs (timed_out_world cfg target s w)))
      as [o w''] eqn:Hrest.
    simpl in IHfew, IHmany. split; intros Hlen.
    + destruct IHfew as (-> & Hcount & Hlaunched); [lia|]. simpl.
      split_and!; [reflexivity|lia|lia].
    + destruct IHmany as (-> & Hcount & Hlaunched & Hexit); [lia|]. simpl.
      split_and!; [reflexivity|lia|lia|exact Hexit].
Qed.

(** C1, as the code has it: a call of [classify] in which the target
    ends by itself sets the counter of consecutive timeouts to zero; and
    with a target that times out at every launch (and passes the
    assertion of [signal_group]), starting from a counter of zero, the
    first 50 calls each return the empty signature and the run goes on,
    while the 51st call, the one that takes the counter above 50, exits
    with status 1 after exactly 51 launches. *)
Theorem breaker_trips_above_threshold :
  (∀ s w rc,
     exits_in_time cfg (launch_run cfg target s w) rc →
     consecutive_timeouts (classify getgid cfg target s w).2 = 0)
  ∧ ((∀ n fs, times_out cfg (target n fs)) →
     (∀ n fs, run_pid (target n fs) ≠ getgid) →
     ∀ ss w, consecutive_timeouts w = 0 →
       let w' := (classify_each getgid cfg target ss w).2 in
       ((length ss ≤ 50)%nat →
          (classify_each getgid cfg target ss w).1
          = Ret (repeat Discard (length ss))
          ∧ consecutive_timeouts w' = Z.of_nat (length ss))
       ∧ ((50 < length ss)%nat →
            (classify_each getgid cfg target ss w).1 = Exit 1
            ∧ launched w' = (launched w + 51)%nat
            ∧ EvExit 1 ∈ trace w')).
Proof.
  split; [apply returned_resets_counter|].
  intros Hlate Hgid ss w Hzero.
  destruct (always_timing_out_run ss Hlate Hgid w ltac:(lia))
    as [Hfew Hmany].
  simpl. split; intros Hlen.
  - destruct Hfew as (? & ? & ?); [lia|]. split; [done|lia].
  - destruct Hmany as (? & ? & ? & ?); [lia|]. split_and!; [done|lia|done].
Qed.


(** *** The first-call flag *)

Lemma classify_popen s w :
  popen_targets (trace (classify getgid cfg target s w).2)
  = popen_targets (trace w) ++ [launch_std w].
Proof.
  destruct (classify_effect s w) as (evs & -> & Hquiet & _).
  unfold launch_events.
  rewrite !popen_targets_app, Hquiet, app_nil_r.
  by destruct (files w !! output cfg).
Qed.

Lemma classify_clears_first_call s w :
  first_call (classify getgid cfg target s w).2 = false.
Proof. by destruct (classify_effect s w) as (_ & _ & _ & ? & _). Qed.

(** A run of calls launches one child per call made; the first of them
    gets the stream target of the starting world and the others
    [DEVNULL]. *)
Lemma classify_each_popen ss w :
  ∃ n,
    launched (classify_each getgid cfg target ss w).2 = (launched w + n)%nat
    ∧ (n ≤ length ss)%nat
    ∧ (∀ rs, (classify_each getgid cfg target ss w).1 = Ret rs →
             n = length ss)
    ∧ (first_call w = false ∨ ss ≠ [] →
       first_call (classify_each getgid cfg target ss w).2 = false)
    ∧ popen_targets (trace (classify_each getgid cfg target ss w).2)
      = popen_targets (trace w)
        ++ take n (launch_std w :: repeat DEVNULL (length ss)).
Proof.
  revert w. induction ss as [|s ss IH]; intros w.
  { exists 0%nat. simpl. rewrite app_nil_r.
    split_and!; [lia|lia|done| |done]. by intros [?|?]. }
  cbn [classify_each length]. unfold bind.
  pose proof (classify_popen s w) as Hpopen.
  pose proof (classify_clears_first_call s w) as Hfc.
  destruct (classify_effect s w) as (_ & _ & _ & _ & Hn).
  destruct (classify getgid cfg target s w) as [o w1]. simpl in Hpopen, Hfc, Hn.
  destruct o as [x|e|m|].
  2,3,4: exists 1%nat; simpl;
    (split_and!; [lia|lia|done|done|by rewrite Hpopen]).
  destruct (IH w1) as (n & Hl & Hle & Hret & Hflag & Htr).
  destruct (classify_each getgid cfg target ss w1) as [o w2].
  simpl in Hl, Hret, Hflag, Htr.
  assert (launch_std w1 = DEVNULL) as Hstd
    by (unfold launch_std; by rewrite Hfc).
  exists (S n).
  assert (popen_targets (trace w2)
          = popen_targets (trace w)
            ++ take (S n) (launch_std w :: repeat DEVNULL (S (length ss))))
    as Htr'.
  { rewrite Htr, Hpopen, Hstd, <- app_assoc. reflexivity. }
  destruct o as [xs|e|m|]; simpl;
    (split_and!; [lia|lia| |intros _; apply Hflag; by left|exact Htr']);
    try done.
  intros rs _. f_equal. by apply (Hret xs).
Qed.

(** C7: over all the calls of [classify] in a run that starts with the
    first-call flag set, the child of the first call gets the operator's
    standard output for its three streams and the child of every later
    call gets [DEVNULL]; one child is launched per call made; and once a
    call has been made the flag is clear and every further call leaves it
    clear and launches its child on [DEVNULL]. *)
Theorem only_first_invocation_is_shown ss w :
  first_call w = true →
  (∃ n,
     launched (classify_each getgid cfg target ss w).2 = (launched w + n)%nat
     ∧ (n ≤ length ss)%nat
     ∧ (∀ rs, (classify_each getgid cfg target ss w).1 = Ret rs →
              n = length ss)
     ∧ popen_targets (trace (classify_each getgid cfg target ss w).2)
       = popen_targets (trace w)
         ++ take n (sys_stdout :: repeat DEVNULL (length ss)))
  ∧ (ss ≠ [] → first_call (classify_each getgid cfg target ss w).2 = false)
  ∧ (∀ s w0,
       first_call (classify getgid cfg target s w0).2 = false
       ∧ (first_call w0 = false →
          popen_targets (trace (classify getgid cfg target s w0).2)
          = popen_targets (trace w0) ++ [DEVNULL])).
Proof.
  intros Hfirst.
  destruct (classify_each_popen ss w) as (n & Hl & Hle & Hret & Hflag & Htr).
  split_and!.
  - exists n. split_and!; try done.
    rewrite Htr. unfold launch_std. by rewrite Hfirst.
  - intros Hne. apply Hflag. by right.
  - intros s w0. split; [apply classify_clears_first_call|].
    intros Hlater. rewrite classify_popen. unfold launch_std.
    by rewrite Hlater.
Qed.


(** *** Widths of the truncated digests *)

Lemma str_take_length k s :
  String.length (str_take k s) = (k `min` String.length s)%nat.
Proof.
  revert s. induction k as [|k IH]; intros [|c s]; simpl; try done.
  by rewrite IH.
Qed.

Lemma string_app_length (a b : string) :
  String.length (a +:+ b) = (String.length a + String.length b)%nat.
Proof. induction a as [|c a IH]; simpl; [done|by rewrite IH]. Qed.

Lemma hexdigest_length (s : bytes) :
  String.length (Sha1.hexdigest s) = 40%nat.
Proof.
  unfold Sha1.hexdigest.
  destruct (Sha1.digest s) as [[[[h0 h1] h2] h3] h4].
  by rewrite !string_app_length.
Qed.

Lemma py_slice_to_length n s :
  Z.of_nat (String.length (py_slice_to n s))
  = if 0 <=? n then n `min` Z.of_nat (String.length s)
    else 0 `max` (Z.of_nat (String.length s) + n).
Proof.
  unfold py_slice_to. destruct (0 <=? n) eqn:Hn; rewrite str_take_length; lia.
Qed.

Lemma digest_width n (s : bytes) :
  0 ≤ n ≤ 40 →
  String.length (py_slice_to n (Sha1.hexdigest s)) = Z.to_nat n.
Proof.
  intros Hn. pose proof (py_slice_to_length n (Sha1.hexdigest s)) as Hlen.
  rewrite hexdigest_length in Hlen.
  replace (0 <=? n) with true in Hlen by lia. lia.
Qed.

(** C6, as the code has it: [hash_size] is the bound of the slice that
    cuts the digest in the output label (and so its width, between 0 and
    40); the digest in the hashed name of a candidate, under which the
    buckets and the seeds keep it, is always cut to 8 characters and is
    the same whatever [hash_size] is. *)
Theorem hash_size_cuts_output_digest_only :
  (∀ s w rc c,
     exits_in_time cfg (launch_run cfg target s w) rc →
     0 ≤ rc ≤ 127 →
     run_files (launch_run cfg target s w) !! output cfg = Some c →
     ∃ ls,
       (classify getgid cfg target s w).1 = Ret (Labels ls)
       ∧ "output-" +:+ py_slice_to (hash_size cfg) (Sha1.hexdigest c) ∈ ls
       ∧ (0 ≤ hash_size cfg ≤ 40 →
          String.length (py_slice_to (hash_size cfg) (Sha1.hexdigest c))
          = Z.to_nat (hash_size cfg)))
  ∧ (∀ s,
       hashed_name cfg s
       = py_slice_to 8 (Sha1.hexdigest s) +:+ "-" +:+ input cfg
       ∧ String.length (py_slice_to 8 (Sha1.hexdigest s)) = 8%nat)
  ∧ (∀ cfg' s, input cfg' = input cfg →
               hashed_name cfg' s = hashed_name cfg s).
Proof.
  split_and!.
  - intros s w rc c Hexit Hrc Hout.
    rewrite (classify_returned _ _ _ Hexit).
    replace ((rc <? 0) || (127 <? rc)) with false by lia.
    simpl. rewrite Hout. eexists. split_and!; [reflexivity| |].
    + apply elem_of_union_r, elem_of_singleton. reflexivity.
    + apply digest_width.
  - intros s. split; [reflexivity|]. by apply (digest_width 8).
  - intros cfg' s Hin. unfold hashed_name, name_for. by rewrite Hin.
Qed.

(** *** The assertion of [signal_group] *)

Lemma launch_events_no_signal s w : signals_sent (launch_events cfg s w) = [].
Proof. unfold launch_events. by destruct (files w !! output cfg). Qed.

(** C9: the assertion compares the child's process-group id, which is
    its pid, with [os.getgid()], the group id of the user that runs the
    engine.  When the two numbers are equal and the target times out,
    the assertion fails: [classify] raises [AssertionError] and no signal
    is sent, so the child is neither interrupted nor killed. *)
Theorem assertion_fails_when_pid_is_gid s w :
  times_out cfg (launch_run cfg target s w) →
  run_present (launch_run cfg target s w) 0 = true →
  run_pid (launch_run cfg target s w) = getgid →
  (classify getgid cfg target s w).1 = Raise AssertionError
  ∧ signals_sent (trace (classify getgid cfg target s w).2)
    = signals_sent (trace w).
Proof.
  intros Hlate Hpresent Hgid.
  rewrite (classify_timed_out _ _ Hlate). simpl.
  rewrite interrupt_wait_and_kill_eq. simpl.
  rewrite signalling_eq, Hpresent. simpl.
  replace (run_pid (launch_run cfg target s w) =? getgid) with true by lia.
  simpl. split; [reflexivity|].
  rewrite !signals_sent_app, launch_events_no_signal. simpl.
  destruct (50 <? consecutive_timeouts w + 1); simpl; by rewrite !app_nil_r.
Qed.

End HarnessFacts.

(** ** [main] and the engine *)

Section MainFacts.

Variable getgid : Z.
Variable cfg : config.
Variable target : nat → gmap path bytes → run.
Variable os_link : path → path → M world unit.
Variable engine : Shrinker.











End MainFacts.

(** ** The concrete runs *)

Import Scenario.

Lemma hangs_times_out first_pid n fs : times_out cfg (hangs_from first_pid n fs).
Proof. split; reflexivity. Qed.

Lemma hangs_pid_is_not_gid n fs : run_pid (hangs n fs) ≠ gid.
Proof. unfold gid. simpl. lia. Qed.

(** Scenario A of the specification: the target copies its input. *)
Example copy_of_ABCDEFGH :
  (classify gid cfg copies_input (bytes_of_string "ABCDEFGH") fresh).1
  = Ret (Labels {[ "return-0"; "output-c15eb4b5" ]}).
Proof. vm_compute. reflexivity. Qed.

Example copy_of_empty :
  (classify gid cfg copies_input [] fresh).1
  = Ret (Labels {[ "return-0"; "output-da39a3ee" ]}).
Proof. vm_compute. reflexivity. Qed.

Example no_output_label :
  (classify gid cfg writes_nothing [] fresh).1
  = Ret (Labels {[ "return-3"; "output-None" ]}).
Proof. vm_compute. reflexivity. Qed.

(** Scenario B of the specification: the crashing input goes to the crashes
    bucket and gets no labels. *)
Example crash_on_7f :
  (classify gid cfg segfaults [Byte.x7f] fresh).1 = Ret Discard
  ∧ files (classify gid cfg segfaults [Byte.x7f] fresh).2
      !! "/w/corpus/crashes/23833462-in" = Some [Byte.x7f].
Proof. vm_compute. split; reflexivity. Qed.

Example timeout_on_A :
  (classify gid cfg hangs [Byte.x41] fresh).1 = Ret Discard
  ∧ files (classify gid cfg hangs [Byte.x41] fresh).2
      !! "/w/corpus/timeouts/6dcd4ce2-in" = Some [Byte.x41]
  ∧ signals_sent (trace (classify gid cfg hangs [Byte.x41] fresh).2)
    = [(4000, SIGINT)].
Proof. vm_compute. split_and!; reflexivity. Qed.

Example interrupted_child_is_not_killed :
  trace (interrupt_wait_and_kill gid (hangs 0 ∅) piped fresh).2
  = [EvClose 5; EvClose 6; EvClose 7; EvKillpg 4000 SIGINT;
     EvPoll None; EvSleep poll_interval; EvPoll None; EvSleep poll_interval;
     EvPoll None; EvSleep poll_interval; EvPoll (Some (-2))].
Proof. vm_compute. reflexivity. Qed.

Example stubborn_child_is_killed :
  signals_sent
    (trace (interrupt_wait_and_kill gid (ignores_sigint 0 ∅) piped fresh).2)
  = [(4000, SIGINT); (4000, SIGKILL)]
  ∧ length
      (trace (interrupt_wait_and_kill gid (ignores_sigint 0 ∅) piped fresh).2)
    = 25%nat.
Proof. vm_compute. split; reflexivity. Qed.

Example reaped_child_is_left_alone :
  interrupt_wait_and_kill gid (hangs 0 ∅)
    (with_returncode piped (Some 0)) fresh
  = (Ret tt, fresh).
Proof. reflexivity. Qed.

Example slice_from_the_end :
  py_slice_to (-36) (Sha1.hexdigest []) = "da39"
  ∧ py_slice_to 100 (Sha1.hexdigest [])
    = "da39a3ee5e6b4b0d3255bfef95601890afd80709"
  ∧ py_slice_to (-41) (Sha1.hexdigest []) = "".
Proof. vm_compute. split_and!; reflexivity. Qed.

(** ** The claims on the concrete runs *)

Lemma breaker_trips_above_threshold_witness :
  consecutive_timeouts
    (classify gid cfg copies_input (bytes_of_string "ABCDEFGH") fresh).2 = 0
  ∧ (classify_each gid cfg hangs (repeat [] 50) fresh).1
    = Ret (repeat Discard 50)
  ∧ (classify_each gid cfg hangs (repeat [] 51) fresh).1 = Exit 1.
Proof.
  split.
  - apply (proj1 (breaker_trips_above_threshold gid cfg copies_input)
             (bytes_of_string "ABCDEFGH") fresh 0).
    exists (1 # 100)%Q. split; reflexivity.
  - pose proof (proj2 (breaker_trips_above_threshold gid cfg hangs)
                  (λ n fs, ltac:(split; reflexivity))
                  (λ n fs, ltac:(unfold gid; simpl; lia))) as Hrun.
    split.
    + destruct (Hrun (repeat [] 50) fresh eq_refl) as [Hfew _].
      destruct Hfew as [Hret _]; [vm_compute; lia|]. exact Hret.
    + destruct (Hrun (repeat [] 51) fresh eq_refl) as [_ Hmany].
      destruct Hmany as [Hexit _]; [vm_compute; lia|]. exact Hexit.
Defined.

(** C1 as stated fails: with a target that always times out, fifty calls
    in a row all return the empty signature and the run has not been
    aborted. *)
Lemma breaker_does_not_trip_at_threshold : ¬ breaker_trips_at_threshold.
Proof.
  intros Hclaim.
  specialize (Hclaim gid cfg hangs (repeat [] 50) fresh
                (hangs_times_out 4000) hangs_pid_is_not_gid eq_refl eq_refl).
  destruct (always_timing_out_run gid cfg hangs (repeat [] 50)
              (hangs_times_out 4000) hangs_pid_is_not_gid fresh)
    as [Hfew _]; [vm_compute; split; discriminate|].
  destruct Hfew as (Hret & _); [vm_compute; discriminate|].
  rewrite Hret in Hclaim. discriminate Hclaim.
Qed.

Lemma normal_exit_signature_witness :
  ∃ ls,
    (classify gid cfg copies_input (bytes_of_string "ABCDEFGH") fresh).1
    = Ret (Labels ls)
    ∧ size ls = 2%nat.
Proof.
  destruct (normal_exit_signature gid cfg copies_input
              (bytes_of_string "ABCDEFGH") fresh 0
              ltac:(exists (1 # 100)%Q; split; reflexivity) ltac:(lia))
    as (ls & Hret & _ & Hsize & _).
  exists ls. split; [exact Hret|exact Hsize].
Defined.

Lemma crash_is_discarded_and_recorded_witness :
  (classify gid cfg segfaults [Byte.x7f] fresh).1 = Ret Discard
  ∧ files (classify gid cfg segfaults [Byte.x7f] fresh).2
      !! os_path_join (crashes cfg) (hashed_name cfg [Byte.x7f])
    = Some [Byte.x7f].
Proof.
  destruct (crash_is_discarded_and_recorded gid cfg segfaults [Byte.x7f] fresh
              (-11) ltac:(exists (1 # 100)%Q; split; reflexivity) ltac:(lia))
    as (Hret & Hbucket & _).
  split; [exact Hret|exact Hbucket].
Defined.

Lemma timeout_is_discarded_and_counted_witness :
  (classify gid cfg hangs [Byte.x41] fresh).1 = Ret Discard
  ∧ consecutive_timeouts (classify gid cfg hangs [Byte.x41] fresh).2 = 1.
Proof.
  destruct (timeout_is_discarded_and_counted gid cfg hangs [Byte.x41] fresh
              ltac:(split; reflexivity) ltac:(simpl; lia)
              ltac:(unfold gid; simpl; lia))
    as (Hret & _ & _ & Hcount & _).
  split; [exact Hret|exact Hcount].
Defined.

(** C4 as stated fails: the first call of a run times out, below the
    threshold, and the first-call flag, set before the call, is clear after
    it. *)
Lemma timeout_clears_first_call : ¬ timeout_touches_only_counter.
Proof.
  intros Hclaim.
  destruct (Hclaim gid cfg hangs [Byte.x41] fresh
              (hangs_times_out 4000 _ _) ltac:(simpl; lia)
              (hangs_pid_is_not_gid _ _))
    as (_ & _ & _ & Hflag).
  rewrite classify_clears_first_call in Hflag. discriminate Hflag.
Qed.

Example first_call_before_and_after :
  first_call fresh = true
  ∧ first_call (classify gid cfg hangs [Byte.x41] fresh).2 = false.
Proof. vm_compute. split; reflexivity. Qed.

Lemma interrupt_then_kill_after_grace_witness :
  ∃ evs,
    interrupt_wait_and_kill gid (ignores_sigint 0 ∅) piped fresh
    = (Ret tt,
       add_trace (closes piped ++ EvKillpg (pid piped) SIGINT :: evs) fresh)
    ∧ (pid piped, SIGKILL) ∈ signals_sent evs.
Proof.
  pose proof (interrupt_then_kill_after_grace gid (ignores_sigint 0 ∅) piped
                fresh ltac:(reflexivity) ltac:(reflexivity)
                ltac:(reflexivity)) as Hrun.
  change (pid piped =? gid) with false in Hrun.
  destruct Hrun as (evs & Heq & _ & Hkill).
  exists evs. split; [exact Heq|]. apply Hkill.
  split_and!; [reflexivity | intros i _; reflexivity
              | reflexivity | reflexivity].
Defined.

(** C5 as stated fails: the child exits during the tenth pause, so it has
    exited when the grace period ends, and the clean-up, which does not
    poll again, still sends [SIGKILL] to its group. *)
Lemma late_exit_is_still_killed : ¬ exit_within_grace_prevents_kill.
Proof.
  intros Hclaim.
  apply (Hclaim gid (exits_late 0 ∅) piped fresh 10%nat 7
           ltac:(reflexivity) ltac:(reflexivity) ltac:(reflexivity)
           ltac:(unfold gid; simpl; lia) ltac:(lia) ltac:(reflexivity)
           4000).
  assert (signals_sent
            (events_since fresh
               (interrupt_wait_and_kill gid (exits_late 0 ∅) piped fresh).2)
          = [(4000, SIGINT); (4000, SIGKILL)]) as ->
    by (vm_compute; reflexivity).
  apply list_elem_of_further, list_elem_of_here.
Qed.

Example late_exit_trace :
  run_poll (exits_late 0 ∅) 9 = None
  ∧ run_poll (exits_late 0 ∅) 10 = Some 7
  ∧ trace (interrupt_wait_and_kill gid (exits_late 0 ∅) piped fresh).2
    = closes piped ++ EvKillpg 4000 SIGINT :: waits 10
      ++ [EvKillpg 4000 SIGKILL].
Proof. vm_compute. split_and!; reflexivity. Qed.

Lemma hash_size_cuts_output_digest_only_witness :
  (∃ ls,
     (classify gid narrow copies_input (bytes_of_string "ABCDEFGH") fresh).1
     = Ret (Labels ls)
     ∧ "output-" +:+ py_slice_to 4 (Sha1.hexdigest (bytes_of_string "ABCDEFGH"))
       ∈ ls)
  ∧ hashed_name narrow [] = hashed_name cfg [].
Proof.
  destruct (hash_size_cuts_output_digest_only gid narrow copies_input)
    as (Hout & _ & Hname).
  split.
  - destruct (Hout (bytes_of_string "ABCDEFGH") fresh 0
                (bytes_of_string "ABCDEFGH")
                ltac:(exists (1 # 100)%Q; split; reflexivity) ltac:(lia)
                ltac:(vm_compute; reflexivity))
      as (ls & Hret & Hin & _).
    exists ls. split; [exact Hret|exact Hin].
  - symmetry. apply Hname. reflexivity.
Defined.

(** C6 as stated fails: with [hash_size] 4 the hashed name of the empty
    candidate still carries eight digits of its digest. *)
Lemma hashed_name_ignores_hash_size : ¬ hash_size_sets_both_widths.
Proof.
  intros Hclaim.
  destruct (Hclaim narrow [] ltac:(simpl; lia)) as [_ Hname].
  vm_compute in Hname. discriminate Hname.
Qed.

Example hashed_name_of_empty :
  hashed_name narrow [] = "da39a3ee-in"
  ∧ name_for narrow (py_slice_to (hash_size narrow) (Sha1.hexdigest []))
    = "da39-in".
Proof. vm_compute. split; reflexivity. Qed.

Lemma only_first_invocation_is_shown_witness :
  popen_targets
    (trace (classify_each gid cfg copies_input [[]; [Byte.x41]; [Byte.x42]]
              fresh).2)
  = [sys_stdout; DEVNULL; DEVNULL].
Proof.
  destruct (only_first_invocation_is_shown gid cfg copies_input
              [[]; [Byte.x41]; [Byte.x42]] fresh ltac:(reflexivity))
    as ((n & Hlaunched & _ & Hret & Htargets) & _).
  rewrite Htargets.
  assert (n = 3%nat) as ->.
  { eapply Hret. vm_compute. reflexivity. }
  reflexivity.
Defined.

Lemma classify_prepares_files_witness :
  launch_files cfg [Byte.x41] (files fresh) !! input cfg = Some [Byte.x41]
  ∧ launch_files cfg [Byte.x41] (files fresh) !! output cfg = None.
Proof.
  destruct (classify_prepares_files gid cfg copies_input [Byte.x41] fresh)
    as (evs & _ & _ & Hin & Hout & _).
  split; [exact Hin|]. apply Hout. discriminate.
Defined.

Lemma assertion_fails_when_pid_is_gid_witness :
  (classify gid cfg hangs_as_1000 [Byte.x41] fresh).1 = Raise AssertionError
  ∧ signals_sent (trace (classify gid cfg hangs_as_1000 [Byte.x41] fresh).2)
    = [].
Proof.
  exact (assertion_fails_when_pid_is_gid gid cfg hangs_as_1000 [Byte.x41] fresh
           ltac:(split; reflexivity) ltac:(reflexivity) ltac:(reflexivity)).
Defined.


(** On the stand-in engine: the first command [main] starts gets the empty
    input, before the seeds directory is listed. *)
Example main_classifies_empty_input_first :
  (main gid cfg copies_input no_source forwarding ([], fresh)).1 = Ret tt
  ∧ (main gid cfg copies_input no_source forwarding ([], fresh)).2.1
    = [CallNew [bytes_of_string "ABCDEFGH"]; CallSeen [] false;
       CallClassify []; CallListdir "/w/corpus/seeds"; CallRun]
  ∧ omap (λ e, match e with
               | EvWrite "in" c => Some (inl c)
               | EvListdir d => Some (inr d)
               | _ => None
               end)
      (trace (main gid cfg copies_input no_source forwarding ([], fresh)).2.2)
    = [inl []; inr "/w/corpus/seeds"].
Proof. vm_compute. split_and!; reflexivity. Qed.
